(** * Chat transcript, markup renderer and search-result view

    A shallow embedding of the chat page component (its websocket
    callbacks, [formatMessage] and [sendMessage]) and of the
    [SearchResults] component, with the properties of the
    transcript reconciliation that the design document states. *)

From Stdlib Require Import List String Ascii Bool ZArith Arith Lia.
Import ListNotations.
Open Scope string_scope.
Open Scope list_scope.
Open Scope nat_scope.

(** ** JavaScript values

    A transcript entry is whatever [JSON.parse] returned for an inbound
    frame, or the object literal built by [sendMessage].  A property
    read [v?.k] yields [None] for [undefined].  Numbers are only ever
    tested for truthiness or stored, so integers stand for them.  An
    object lists its own properties in insertion order, each key
    once. *)

#[warnings="-register-all"]
Inductive value : Type :=
| VNull
| VBool (b : bool)
| VNum (n : Z)
| VStr (s : string)
| VArr (items : list value)
| VObj (fields : list (string * value)).

Fixpoint assoc {A : Type} (k : string) (l : list (string * A)) : option A :=
  match l with
  | [] => None
  | (k', v) :: l' => if String.eqb k k' then Some v else assoc k l'
  end.

(** [v?.k] for the property names the component reads
    ([chain_of_thought], [user]): only objects carry them. *)
Definition get (v : option value) (k : string) : option value :=
  match v with
  | Some (VObj fields) => assoc k fields
  | _ => None
  end.

(** ToBoolean. *)
Definition truthy (v : option value) : bool :=
  match v with
  | None => false
  | Some VNull => false
  | Some (VBool b) => b
  | Some (VNum n) => negb (n =? 0)%Z
  | Some (VStr s) => negb (String.eqb s "")
  | Some (VArr _) => true
  | Some (VObj _) => true
  end.

(** [v === "You"]. *)
Definition is_You (v : option value) : bool :=
  match v with
  | Some (VStr s) => String.eqb s "You"
  | _ => false
  end.

(** ** Component state *)

Inductive ReadyState : Type := CONNECTING | OPEN | CLOSING | CLOSED.

Record WebSocket : Type := { readyState : ReadyState }.

(** The [useState] cells of [Chat]; [ws] is [None] while it is still
    [null]. *)
Record Chat : Type := mkChat {
  messages : list value;
  input : string;
  loading : bool;
  ws : option WebSocket;
  searchEnabled : bool
}.

Definition setMessages (f : list value -> list value) (c : Chat) : Chat :=
  mkChat (f (messages c)) (input c) (loading c) (ws c) (searchEnabled c).

Definition setInput (s : string) (c : Chat) : Chat :=
  mkChat (messages c) s (loading c) (ws c) (searchEnabled c).

Definition setLoading (b : bool) (c : Chat) : Chat :=
  mkChat (messages c) (input c) b (ws c) (searchEnabled c).

Definition setSearchEnabled (b : bool) (c : Chat) : Chat :=
  mkChat (messages c) (input c) (loading c) (ws c) b.

(** What a callback does besides updating the state. *)
Inductive Effect : Type :=
| Log (line : string)
| WsSend (payload : value)            (* ws.send(JSON.stringify(payload)) *)
| Uncaught (exn : string).

(** ** websocket.onmessage *)

(** [msg?.chain_of_thought] as a condition. *)
Definition chain_of_thought (msg : option value) : bool :=
  truthy (get msg "chain_of_thought").

(** [msg?.user === "You"]. *)
Definition from_You (msg : option value) : bool :=
  is_You (get msg "user").

(** The predicate of the [filter] call. *)
Definition kept (msg : value) : bool :=
  chain_of_thought (Some msg) || from_You (Some msg).

(** [prev[prev.length - 1]]. *)
Definition last_entry (prev : list value) : option value :=
  nth_error prev (List.length prev - 1).

(** [prev.slice(0, -1)]. *)
Definition slice_0_m1 (prev : list value) : list value :=
  firstn (List.length prev - 1) prev.

(** The condition of the inner [if]. *)
Definition overrides (prev : list value) : bool :=
  (0 <? List.length prev)
  && negb (chain_of_thought (last_entry prev))
  && negb (from_You (last_entry prev)).

(** The updater passed to [setMessages] for the parsed frame [data]. *)
Definition reduce (data : value) (prev : list value) : list value :=
  if chain_of_thought (Some data) then
    filter kept prev ++ [data]
  else if overrides prev then
    slice_0_m1 prev ++ [data]
  else
    prev ++ [data].

(** [parsed] is the outcome of [JSON.parse(event.data)]: [None] when it
    throws, which happens before [setMessages] is reached. *)
Definition onmessage (parsed : option value) (c : Chat) : Chat * list Effect :=
  match parsed with
  | None => (c, [Uncaught "SyntaxError"])
  | Some data => (setMessages (reduce data) c, [])
  end.

Definition onopen (c : Chat) : Chat * list Effect :=
  (c, [Log "Connected to WebSocket"]).

Definition onclose (c : Chat) : Chat * list Effect :=
  (c, [Log "WebSocket disconnected"]).

(** Folding a run of parsed frames into a transcript, in arrival
    order. *)
Definition reduce_all (evs : list value) (prev : list value) : list value :=
  fold_left (fun acc data => reduce data acc) evs prev.

(** ** sendMessage *)

(** Strings are sequences of code units; the embedding covers the code
    units below 256, one [ascii] each.  Among those, [trim] strips TAB,
    LF, VT, FF, CR, SP and NBSP. *)
Definition is_space (c : ascii) : bool :=
  let n := nat_of_ascii c in
  (n =? 9) || (n =? 10) || (n =? 11) || (n =? 12) || (n =? 13)
  || (n =? 32) || (n =? 160).

Fixpoint trimStart (s : string) : string :=
  match s with
  | EmptyString => EmptyString
  | String c s' => if is_space c then trimStart s' else s
  end.

Fixpoint trimEnd (s : string) : string :=
  match s with
  | EmptyString => EmptyString
  | String c s' =>
      match trimEnd s' with
      | EmptyString => if is_space c then EmptyString else String c EmptyString
      | t => String c t
      end
  end.

Definition trim (s : string) : string := trimEnd (trimStart s).

(** A string as a condition. *)
Definition nonempty (s : string) : bool := negb (String.eqb s "").

(** [{ ...obj, k: v }]. *)
Fixpoint with_prop (k : string) (v : value) (fields : list (string * value))
  : list (string * value) :=
  match fields with
  | [] => [(k, v)]
  | (k', v') :: rest =>
      if String.eqb k k' then (k, v) :: rest
      else (k', v') :: with_prop k v rest
  end.

(** The object literal of [sendMessage]; [now] is the value of
    [Date.now()]. *)
Definition messageData (now : Z) (c : Chat) : list (string * value) :=
  [ ("id", VNum now);
    ("user_id", VStr "user123");
    ("session_id", VStr "session123");
    ("user_message", VStr (input c));
    ("search", VBool (searchEnabled c)) ].

Definition user_entry (now : Z) (c : Chat) : value :=
  VObj (with_prop "user" (VStr "You") (messageData now c)).

(** [WebSocket.send] raises [InvalidStateError] while the socket is
    still connecting, and returns normally in every other ready state
    (the data is dropped by the socket once it is closing or closed). *)
Definition send_throws (sock : WebSocket) : bool :=
  match readyState sock with
  | CONNECTING => true
  | _ => false
  end.

Definition sendMessage (now : Z) (c : Chat) : Chat * list Effect :=
  match ws c with
  | Some sock =>
      if nonempty (trim (input c)) then
        if send_throws sock then
          (c, [Uncaught "InvalidStateError"])
        else
          (setLoading true
             (setInput ""
                (setMessages (fun prev => prev ++ [user_entry now c]) c)),
           [WsSend (VObj (messageData now c))])
      else (c, [])
  | None => (c, [])
  end.

(** A submission is accepted when the body of the [if] runs to its
    end. *)
Definition accepted (c : Chat) : bool :=
  match ws c with
  | Some sock => nonempty (trim (input c)) && negb (send_throws sock)
  | None => false
  end.

(** ** The callbacks of the component, and runs of them *)

Inductive Callback : Type :=
| OnOpen
| OnMessage (parsed : option value)
| OnClose
| SendMessage (now : Z)
| InputChange (text : string)         (* onChange of the text area *)
| SearchToggle (on : bool).           (* onValueChange of the switch *)

Definition step (c : Chat) (cb : Callback) : Chat * list Effect :=
  match cb with
  | OnOpen => onopen c
  | OnMessage parsed => onmessage parsed c
  | OnClose => onclose c
  | SendMessage now => sendMessage now c
  | InputChange text => (setInput text c, [])
  | SearchToggle on => (setSearchEnabled on c, [])
  end.

Definition run (c : Chat) (cbs : list Callback) : Chat :=
  fold_left (fun acc cb => fst (step acc cb)) cbs c.

(** ** formatMessage *)

Inductive Segment : Type :=
| Plain (text : string)
| Strong (text : string)
| Br.

(** [text.split("\n")]. *)
Fixpoint split_lines (s : string) : list string :=
  match s with
  | EmptyString => [EmptyString]
  | String c s' =>
      if Ascii.eqb c "010" then EmptyString :: split_lines s'
      else match split_lines s' with
           | l :: ls => String c l :: ls
           | [] => [String c EmptyString]
           end
  end.

Definition is_star (c : ascii) : bool := Ascii.eqb c "*".

(** [.] matches every code unit but the line terminators. *)
Definition is_line_terminator (c : ascii) : bool :=
  Ascii.eqb c "010" || Ascii.eqb c "013".

(** The tail [.*?\*\*] of the pattern, matched at the head of [s]: the
    text consumed by the lazy star and what follows the closing
    delimiter. *)
Fixpoint lazy_close (s : string) : option (string * string) :=
  match s with
  | String a (String b rest as s') =>
      if is_star a && is_star b then Some (EmptyString, rest)
      else if is_line_terminator a then None
      else match lazy_close s' with
           | Some (inner, after) => Some (String a inner, after)
           | None => None
           end
  | _ => None
  end.

(** The pattern [\*\*.*?\*\*] matched at the head of [s]: the matched
    text and the rest. *)
Definition match_bold (s : string) : option (string * string) :=
  match s with
  | String a (String b rest) =>
      if is_star a && is_star b then
        match lazy_close rest with
        | Some (inner, after) => Some (("**" ++ inner ++ "**")%string, after)
        | None => None
        end
      else None
  | _ => None
  end.

(** The loop of [split] for a pattern with one capture group around
    all of it: [pending] is the text since the last match, [s] the text
    still to scan.  A match is never empty, so every match ends a
    chunk. *)
Fixpoint split_loop (fuel : nat) (pending s : string) : list string :=
  match fuel with
  | 0 => []
  | S fuel' =>
      match s with
      | EmptyString => [pending]
      | String c s' =>
          match match_bold s with
          | Some (m, rest) => pending :: m :: split_loop fuel' EmptyString rest
          | None => split_loop fuel' (pending ++ String c EmptyString)%string s'
          end
      end
  end.

(** [line.split] on the pattern, whose capture group spans the whole
    match. *)
Definition split_bold (line : string) : list string :=
  split_loop (S (String.length line)) EmptyString line.

Definition startsWith (s pre : string) : bool := String.prefix pre s.

Definition endsWith (s suf : string) : bool :=
  (String.length suf <=? String.length s)
  && String.eqb
       (substring (String.length s - String.length suf) (String.length suf) s)
       suf.

(** [s.slice(2, -2)]. *)
Definition slice_2_m2 (s : string) : string :=
  let len := String.length s in
  let from := Nat.min 2 len in
  let to := len - 2 in
  substring from (to - from) s.

Definition render_chunk (chunk : string) : Segment :=
  if startsWith chunk "**" && endsWith chunk "**"
  then Strong (slice_2_m2 chunk)
  else Plain chunk.

(** One [span] per line: its chunks, then the [br]. *)
Definition render_line (line : string) : list Segment :=
  map render_chunk (split_bold line) ++ [Br].

Definition formatMessage (text : string) : list (list Segment) :=
  map render_line (split_lines text).

(** ** SearchResults *)

Record ResultItem : Type := mkItem {
  image : option string;
  thumbnails : option (list string);
  title : option string;
  date : option string;
  publish_time : option string;
  body : option string;
  href : option string;
  url : option string;
  link : option string
}.

(** An entry of a category's array is an item object or [null]. *)
Definition Entry : Type := option ResultItem.

(** The [results] prop: the keys in [Object.keys] order, each with its
    array, or [None] where the property holds [null]. *)
Definition Results : Type := list (string * option (list Entry)).

(** An optional string as a condition. *)
Definition present (o : option string) : bool :=
  match o with
  | Some s => nonempty s
  | None => false
  end.

(** [a || b] on optional strings. *)
Definition or_else (a b : option string) : option string :=
  if present a then a else b.

Record Img : Type := mkImg { src : option string; alt : option string }.

Record Card : Type := mkCard {
  imgs : list Img;
  card_title : option string;
  card_date : option string;
  card_body : option string;
  card_href : option string;
  card_label : string
}.

Record Group : Type := mkGroup { heading : string; cards : list Card }.

(** [results[category]]: [None] for [undefined] and for [null]. *)
Definition lookup (results : Results) (category : string)
  : option (list Entry) :=
  match assoc category results with
  | Some (Some entries) => Some entries
  | _ => None
  end.

(** The predicate of the first [filter]. *)
Definition displayable (results : Results) (category : string) : bool :=
  match lookup results category with
  | Some entries => 0 <? List.length entries
  | None => false
  end.

(** [.filter(Boolean)] on an array of item objects and [null]s. *)
Fixpoint filter_Boolean (entries : list Entry) : list ResultItem :=
  match entries with
  | [] => []
  | Some item :: rest => item :: filter_Boolean rest
  | None :: rest => filter_Boolean rest
  end.

(** All-or-nothing [map] for a body that may raise. *)
Fixpoint map_opt {A B : Type} (f : A -> option B) (l : list A)
  : option (list B) :=
  match l with
  | [] => Some []
  | a :: l' =>
      match f a, map_opt f l' with
      | Some b, Some bs => Some (b :: bs)
      | _, _ => None
      end
  end.

Section View.

(** [formatDate] goes through the platform's [Date] and locale
    tables; the view is stated for whatever it returns. *)
Variable formatDate : string -> string.

(** The two image blocks of a card, in document order. *)
Definition card_imgs (item : ResultItem) : list Img :=
  (if present (image item)
   then [mkImg (image item) (title item)] else [])
  ++
  (match thumbnails item with
   | Some ts =>
       if 0 <? List.length ts
       then [mkImg (nth_error ts 0) (title item)] else []
   | None => []
   end).

Definition card (category : string) (item : ResultItem) : Card :=
  mkCard
    (card_imgs item)
    (title item)
    (if present (date item) || present (publish_time item)
     then option_map formatDate (or_else (date item) (publish_time item))
     else None)
    (body item)
    (or_else (or_else (href item) (url item)) (link item))
    (if String.eqb category "videos" then "View" else "Read more").

(** The body of the outer [map]; reading [.filter] off a missing
    array raises. *)
Definition group (results : Results) (category : string) : option Group :=
  match lookup results category with
  | Some entries =>
      Some (mkGroup category (map (card category) (filter_Boolean entries)))
  | None => None
  end.

Definition SearchResults (results : Results) : option (list Group) :=
  map_opt (group results)
          (filter (displayable results) (map fst results)).

End View.

(** ** The transcript as rendered

    The body of [messages.map] in the component's markup. *)

(** [a || b] on values. *)
Definition or_value (a b : option value) : option value :=
  if truthy a then a else b.

(** What [{v && <SearchResults results={v} />}] puts in the markup: the
    component for a truthy [v], the text [0] for the number zero,
    nothing for the other falsy values. *)
Inductive Slot : Type :=
| ShowResults (results : value)
| ZeroText
| Nothing.

Definition search_slot (v : option value) : Slot :=
  match v with
  | Some (VNum n) => if (n =? 0)%Z then ZeroText else ShowResults (VNum n)
  | Some r => if truthy v then ShowResults r else Nothing
  | None => Nothing
  end.

Record Bubble : Type := mkBubble {
  items_end : bool;                   (* msg.user === "You" *)
  spinner : option (option value);    (* the note beside the spinner *)
  results_slot : Slot;
  paragraph : list (list Segment)
}.

(** [text.split] exists on strings only; anything else raises. *)
Definition formatMessage_value (text : option value)
  : option (list (list Segment)) :=
  match text with
  | Some (VStr s) => Some (formatMessage s)
  | _ => None
  end.

(** One [div] of the list, or [None] when building it raises:
    [msg.user] is read without [?.], so a [null] entry raises. *)
Definition render_message (msg : value) : option Bubble :=
  match msg with
  | VNull => None
  | _ =>
      let m := Some msg in
      match formatMessage_value
              (or_value (get m "user_message") (get m "message")) with
      | Some rows =>
          Some (mkBubble
                  (from_You m)
                  (if negb (chain_of_thought m) && negb (from_You m)
                   then Some (get m "chain_of_thought_message") else None)
                  (search_slot (get m "search_results"))
                  rows)
      | None => None
      end
  end.

Definition render_transcript (c : Chat) : option (list Bubble) :=
  map_opt render_message (messages c).

(** * Properties *)

(** ** The transcript reducer *)

Lemma last_entry_snoc (l : list value) (x : value) :
  last_entry (l ++ [x]) = Some x.
Proof.
  unfold last_entry. rewrite length_app. simpl.
  replace (List.length l + 1 - 1) with (List.length l + 0) by lia.
  rewrite nth_error_app2 by lia.
  replace (List.length l + 0 - List.length l) with 0 by lia.
  reflexivity.
Qed.

Lemma slice_0_m1_snoc (l : list value) (x : value) :
  slice_0_m1 (l ++ [x]) = l.
Proof.
  unfold slice_0_m1. rewrite length_app. simpl.
  replace (List.length l + 1 - 1) with (List.length l + 0) by lia.
  rewrite firstn_app_2. simpl. apply app_nil_r.
Qed.

Lemma overrides_nil : overrides [] = false.
Proof. reflexivity. Qed.

Lemma overrides_snoc (l : list value) (a : value) :
  overrides (l ++ [a])
  = negb (chain_of_thought (Some a)) && negb (from_You (Some a)).
Proof.
  unfold overrides. rewrite last_entry_snoc, length_app. simpl.
  replace (0 <? List.length l + 1) with true; [reflexivity|].
  symmetry. apply Nat.ltb_lt. lia.
Qed.

Lemma filter_kept_idem (l : list value) :
  filter kept (filter kept l) = filter kept l.
Proof.
  induction l as [|x l IH]; simpl; [reflexivity|].
  destruct (kept x) eqn:E; simpl; [rewrite E, IH|]; auto.
Qed.

Lemma reduce_reasoning (d : value) (prev : list value) :
  chain_of_thought (Some d) = true ->
  reduce d prev = filter kept prev ++ [d].
Proof. intros H. unfold reduce. now rewrite H. Qed.

Lemma reduce_final_override (d a : value) (l : list value) :
  chain_of_thought (Some d) = false ->
  chain_of_thought (Some a) = false ->
  from_You (Some a) = false ->
  reduce d (l ++ [a]) = l ++ [d].
Proof.
  intros Hd Ha Hu. unfold reduce.
  rewrite Hd, overrides_snoc, Ha, Hu. simpl.
  now rewrite slice_0_m1_snoc.
Qed.

Lemma reduce_final_append (d : value) (prev : list value) :
  chain_of_thought (Some d) = false ->
  overrides prev = false ->
  reduce d prev = prev ++ [d].
Proof. intros Hd Ho. unfold reduce. now rewrite Hd, Ho. Qed.

Lemma reduce_all_cons (d : value) (evs prev : list value) :
  reduce_all (d :: evs) prev = reduce_all evs (reduce d prev).
Proof. reflexivity. Qed.

Lemma reasoning_burst (evs : list value) :
  Forall (fun d => chain_of_thought (Some d) = true) evs ->
  forall d prev,
    chain_of_thought (Some d) = true ->
    reduce_all evs (filter kept prev ++ [d]) = filter kept prev ++ d :: evs.
Proof.
  induction 1 as [|e evs He _ IH]; intros d prev Hd.
  - reflexivity.
  - rewrite reduce_all_cons, (reduce_reasoning e) by assumption.
    assert (Hk : kept d = true) by (unfold kept; now rewrite Hd).
    rewrite filter_app, filter_kept_idem. simpl. rewrite Hk.
    specialize (IH e (filter kept prev ++ [d]) He).
    rewrite filter_app, filter_kept_idem in IH. simpl in IH. rewrite Hk in IH.
    rewrite IH, <- app_assoc. reflexivity.
Qed.

(** The first testable property as the design document words it: after
    a run of reasoning events the transcript holds one reasoning entry,
    the last event received. *)
Definition single_reasoning_entry (prev evs : list value) : Prop :=
  exists d,
    last_entry evs = Some d
    /\ filter (fun m => chain_of_thought (Some m)) (reduce_all evs prev) = [d].

Definition thinking (note : string) : value :=
  VObj [("chain_of_thought", VBool true);
        ("chain_of_thought_message", VStr note)].

(** C1, as stated, fails: two reasoning events folded into the empty
    transcript leave two reasoning entries, not one. *)
Lemma reasoning_updates_accumulate :
  Forall (fun d => chain_of_thought (Some d) = true)
         [thinking "searching"; thinking "reading"]
  /\ reduce_all [thinking "searching"; thinking "reading"] []
     = [thinking "searching"; thinking "reading"]
  /\ ~ single_reasoning_entry [] [thinking "searching"; thinking "reading"].
Proof.
  split; [repeat constructor|]. split; [reflexivity|].
  intros [d [_ H]]. discriminate H.
Qed.

(** C1, amended: a non-empty run of reasoning events folded into any
    transcript yields that transcript's reasoning and user entries (its
    other entries are dropped) followed by every event of the run in
    arrival order, so the last entry is the last event received and
    earlier reasoning entries stay. *)
Theorem reasoning_run_appends (prev evs : list value) :
  evs <> [] ->
  Forall (fun d => chain_of_thought (Some d) = true) evs ->
  reduce_all evs prev = filter kept prev ++ evs
  /\ last_entry (reduce_all evs prev) = last_entry evs
  /\ filter (fun m => chain_of_thought (Some m)) (reduce_all evs prev)
     = filter (fun m => chain_of_thought (Some m)) prev ++ evs.
Proof.
  intros Hne Hall. destruct evs as [|d evs]; [congruence|].
  inversion Hall as [|? ? Hd Hevs]; subst.
  assert (E : reduce_all (d :: evs) prev = filter kept prev ++ d :: evs).
  { rewrite reduce_all_cons, reduce_reasoning by assumption.
    now apply reasoning_burst. }
  split; [exact E|]. split.
  - rewrite E. destruct (exists_last Hne) as [l [z Hz]].
    rewrite Hz, app_assoc. now rewrite !last_entry_snoc.
  - rewrite E, filter_app. f_equal.
    + clear. induction prev as [|x l IH]; simpl; [reflexivity|].
      unfold kept at 1.
      destruct (chain_of_thought (Some x)) eqn:C; simpl.
      * rewrite C. now f_equal.
      * destruct (from_You (Some x)); simpl; [rewrite C|]; exact IH.
    + clear - Hall. induction Hall as [|x l Hx _ IH]; simpl; [reflexivity|].
      rewrite Hx. now f_equal.
Qed.

Lemma reasoning_run_appends_witness :
  let prev := [VObj [("message", VStr "old answer")];
               VObj [("user", VStr "You")]] in
  let evs := [thinking "searching"; thinking "reading"] in
  evs <> []
  /\ Forall (fun d => chain_of_thought (Some d) = true) evs
  /\ reduce_all evs prev = filter kept prev ++ evs
  /\ last_entry (reduce_all evs prev) = last_entry evs
  /\ filter (fun m => chain_of_thought (Some m)) (reduce_all evs prev)
     = filter (fun m => chain_of_thought (Some m)) prev ++ evs.
Proof.
  split; [discriminate|]. split; [repeat constructor|].
  apply reasoning_run_appends; [discriminate|repeat constructor].
Defined.

(** The second testable property as the design document words it: a run
    of final events met by a transcript whose last entry is neither the
    user's nor a reasoning entry keeps overwriting that last slot, so
    only the last event of the run remains. *)
Definition finals_leave_only_last (prev evs : list value) : Prop :=
  overrides prev = true ->
  Forall (fun d => chain_of_thought (Some d) = false) evs ->
  forall d, last_entry evs = Some d ->
  reduce_all evs prev = slice_0_m1 prev ++ [d].

(** C2, as stated, fails: the origin of an entry is read off its
    [user] property, which an inbound frame may carry as well; such a
    final event is stored as it is, counts as the user's from then on,
    and the next final event is appended after it. *)
Lemma final_tagged_You_is_not_overwritten :
  let prev := [VObj [("message", VStr "partial")]] in
  let evs := [VObj [("message", VStr "echo"); ("user", VStr "You")];
              VObj [("message", VStr "answer")]] in
  reduce_all evs prev = evs
  /\ ~ finals_leave_only_last prev evs.
Proof.
  split; [reflexivity|].
  intros H.
  specialize (H eq_refl (ltac:(repeat constructor)) _ eq_refl).
  discriminate H.
Qed.

Lemma last_cons_default {A : Type} (l : list A) (x d d' : A) :
  last (x :: l) d = last (x :: l) d'.
Proof.
  revert x. induction l as [|y l IH]; intros x; [reflexivity|].
  change (last (y :: l) d = last (y :: l) d'). apply IH.
Qed.

Lemma last_cons_self {A : Type} (l : list A) (x d : A) :
  last (x :: l) d = last l x.
Proof.
  destruct l as [|y l]; [reflexivity|].
  change (last (y :: l) d = last (y :: l) x). apply last_cons_default.
Qed.

Lemma finals_override_run (evs : list value) :
  forall d a l,
    Forall (fun e => chain_of_thought (Some e) = false) (d :: evs) ->
    Forall (fun e => from_You (Some e) = false) (removelast (d :: evs)) ->
    chain_of_thought (Some a) = false ->
    from_You (Some a) = false ->
    reduce_all (d :: evs) (l ++ [a]) = l ++ [last evs d].
Proof.
  induction evs as [|e evs IH]; intros d a l Hf Hu Ha Hua.
  - inversion Hf; subst. simpl. now apply reduce_final_override.
  - inversion Hf as [|? ? Hd Hf']; subst.
    change (removelast (d :: e :: evs)) with (d :: removelast (e :: evs)) in Hu.
    inversion Hu as [|? ? Hud Hu']; subst.
    rewrite reduce_all_cons, reduce_final_override by assumption.
    rewrite (IH e d l Hf' Hu' Hd Hud).
    do 2 f_equal. symmetry. apply last_cons_self.
Qed.

(** C2, amended: for a run of final events none of which, the last
    apart, carries [user = "You"]: met by a transcript whose last entry
    is neither the user's nor a reasoning entry, the run overwrites
    that last slot and leaves only its last event there; met by an
    empty transcript or one whose last entry is the user's or a
    reasoning entry, the first event is appended and the run leaves
    only its last event after the old entries.  A single final event
    is appended in exactly those latter cases. *)
Theorem final_run_coalesces (d : value) (evs : list value) :
  Forall (fun e => chain_of_thought (Some e) = false) (d :: evs) ->
  Forall (fun e => from_You (Some e) = false) (removelast (d :: evs)) ->
  (forall l a,
      chain_of_thought (Some a) = false ->
      from_You (Some a) = false ->
      reduce_all (d :: evs) (l ++ [a]) = l ++ [last evs d])
  /\ (forall prev,
         prev = []
         \/ (exists l a, prev = l ++ [a]
                         /\ (from_You (Some a) = true
                             \/ chain_of_thought (Some a) = true)) ->
         reduce d prev = prev ++ [d]
         /\ reduce_all (d :: evs) prev = prev ++ [last evs d]).
Proof.
  intros Hf Hu. split.
  - intros l a Ha Hua. now apply finals_override_run.
  - intros prev Hprev.
    assert (Ho : overrides prev = false).
    { destruct Hprev as [-> | [l [a [-> [H | H]]]]].
      - reflexivity.
      - rewrite overrides_snoc, H. apply andb_false_r.
      - rewrite overrides_snoc, H. reflexivity. }
    assert (Hd : chain_of_thought (Some d) = false) by now inversion Hf.
    split; [now apply reduce_final_append|].
    destruct evs as [|e evs].
    + simpl. now apply reduce_final_append.
    + rewrite reduce_all_cons, reduce_final_append by assumption.
      inversion Hf as [|? ? _ Hf']; subst.
      change (removelast (d :: e :: evs)) with (d :: removelast (e :: evs)) in Hu.
      inversion Hu as [|? ? Hud Hu']; subst.
      rewrite (finals_override_run evs e d prev Hf' Hu' Hd Hud).
      do 2 f_equal. symmetry. apply last_cons_self.
Qed.

Lemma final_run_coalesces_witness :
  let d := VObj [("message", VStr "The")] in
  let evs := [VObj [("message", VStr "The answer")];
              VObj [("message", VStr "The answer is 4")]] in
  Forall (fun e => chain_of_thought (Some e) = false) (d :: evs)
  /\ Forall (fun e => from_You (Some e) = false) (removelast (d :: evs))
  /\ reduce_all (d :: evs) ([VObj [("user", VStr "You")]] ++ [VObj []])
     = [VObj [("user", VStr "You")]] ++ [last evs d]
  /\ reduce_all (d :: evs) [thinking "adding"]
     = [thinking "adding"] ++ [last evs d].
Proof.
  intros d evs.
  assert (Hf : Forall (fun e => chain_of_thought (Some e) = false) (d :: evs))
    by (repeat constructor).
  assert (Hu : Forall (fun e => from_You (Some e) = false)
                      (removelast (d :: evs)))
    by (repeat constructor).
  split; [exact Hf|]. split; [exact Hu|].
  destruct (final_run_coalesces d evs Hf Hu) as [Hover Happ].
  split.
  - apply Hover; reflexivity.
  - apply (Happ [thinking "adding"]).
    right. exists [], (thinking "adding"). split; [reflexivity|].
    right. reflexivity.
Defined.

(** ** Submissions *)

Lemma user_entry_from_You (now : Z) (c : Chat) :
  from_You (Some (user_entry now c)) = true.
Proof. reflexivity. Qed.

Lemma sendMessage_accepted (now : Z) (c : Chat) :
  accepted c = true ->
  sendMessage now c
  = (mkChat (messages c ++ [user_entry now c]) "" true (ws c)
            (searchEnabled c),
     [WsSend (VObj (messageData now c))]).
Proof.
  unfold accepted, sendMessage.
  destruct (ws c) as [sock|] eqn:E; [|discriminate].
  intros H. apply andb_prop in H. destruct H as [Ht Hs].
  apply negb_true_iff in Hs. rewrite Ht, Hs.
  unfold setLoading, setInput, setMessages. simpl. now rewrite E.
Qed.

Lemma sendMessage_rejected (now : Z) (c : Chat) :
  accepted c = false ->
  fst (sendMessage now c) = c.
Proof.
  unfold accepted, sendMessage. destruct (ws c) as [sock|]; [|reflexivity].
  destruct (nonempty (trim (input c))); [|reflexivity].
  destruct (send_throws sock); [reflexivity|discriminate].
Qed.

(** The entry [u] sits in the transcript after [pre], which is what is
    left of the entries that preceded it. *)
Definition holds_after (pre : list value) (u : value) (m : list value) : Prop :=
  exists pre' post,
    m = pre' ++ u :: post /\ (pre' = pre \/ pre' = filter kept pre).

Lemma reduce_holds_after (d u : value) (pre m : list value) :
  from_You (Some u) = true ->
  holds_after pre u m ->
  holds_after pre u (reduce d m).
Proof.
  intros Hu [pre' [post [-> Hpre]]].
  assert (Hk : kept u = true) by (unfold kept; rewrite Hu; apply orb_true_r).
  unfold reduce. destruct (chain_of_thought (Some d)).
  - exists (filter kept pre'), (filter kept post ++ [d]). split.
    + rewrite filter_app. simpl. rewrite Hk, <- app_assoc. reflexivity.
    + right. destruct Hpre as [-> | ->]; [reflexivity|apply filter_kept_idem].
  - destruct (overrides (pre' ++ u :: post)) eqn:Ho.
    + destruct (exists_last (l := post)) as [post0 [z Hz]].
      * intros ->.
        rewrite overrides_snoc, Hu in Ho. rewrite andb_false_r in Ho.
        discriminate.
      * subst post. exists pre', (post0 ++ [d]). split; [|exact Hpre].
        replace (pre' ++ u :: post0 ++ [z]) with ((pre' ++ u :: post0) ++ [z])
          by (rewrite <- app_assoc; reflexivity).
        rewrite slice_0_m1_snoc, <- app_assoc. reflexivity.
    + exists pre', (post ++ [d]). split; [|exact Hpre].
      rewrite <- app_assoc. reflexivity.
Qed.

Lemma run_frames_messages (frames : list (option value)) :
  forall c pre u,
    from_You (Some u) = true ->
    holds_after pre u (messages c) ->
    holds_after pre u (messages (run c (map OnMessage frames))).
Proof.
  induction frames as [|f frames IH]; intros c pre u Hu H; [exact H|].
  simpl. apply IH; [exact Hu|].
  destruct f as [data|]; simpl; [|exact H].
  now apply reduce_holds_after.
Qed.

(** C4: whatever inbound frames were processed before it, an accepted
    submission appends one entry, the user's, and whatever inbound
    frames are processed after it, that entry is still in the
    transcript, after what is left of the entries that preceded it: no
    reasoning event filters it out and no final event overwrites it. *)
Theorem submission_is_kept
  (c0 : Chat) (before after : list (option value)) (now : Z) :
  let c := run c0 (map OnMessage before) in
  let u := user_entry now c in
  accepted c = true ->
  messages (fst (sendMessage now c)) = messages c ++ [u]
  /\ from_You (Some u) = true
  /\ exists pre post,
       messages (run (fst (sendMessage now c)) (map OnMessage after))
       = pre ++ u :: post
       /\ (pre = messages c \/ pre = filter kept (messages c)).
Proof.
  intros c u Hacc. rewrite (sendMessage_accepted now c Hacc). simpl.
  split; [reflexivity|]. split; [apply user_entry_from_You|].
  apply run_frames_messages; [apply user_entry_from_You|].
  exists (messages c), []. simpl. auto.
Qed.

Definition chat0 : Chat :=
  mkChat [] "2 + 2?" false (Some {| readyState := OPEN |}) false.

Lemma submission_is_kept_witness :
  let c := run chat0 (map OnMessage [Some (thinking "idle")]) in
  let u := user_entry 1700000000000 c in
  let after := [Some (thinking "adding"); None;
                Some (VObj [("message", VStr "4")]);
                Some (VObj [("message", VStr "4.")])] in
  accepted c = true
  /\ messages (fst (sendMessage 1700000000000 c)) = messages c ++ [u]
  /\ from_You (Some u) = true
  /\ exists pre post,
       messages (run (fst (sendMessage 1700000000000 c)) (map OnMessage after))
       = pre ++ u :: post
       /\ (pre = messages c \/ pre = filter kept (messages c)).
Proof.
  split; [reflexivity|].
  apply (submission_is_kept chat0 [Some (thinking "idle")]). reflexivity.
Defined.

(** The outbound request as the design document words it: the text it
    carries is the trimmed input. *)
Definition request_with_trimmed_text (now : Z) (c : Chat) : value :=
  VObj [ ("id", VNum now);
         ("user_id", VStr "user123");
         ("session_id", VStr "session123");
         ("user_message", VStr (trim (input c)));
         ("search", VBool (searchEnabled c)) ].

Definition sends_trimmed_text (now : Z) (c : Chat) : Prop :=
  accepted c = true ->
  snd (sendMessage now c) = [WsSend (request_with_trimmed_text now c)].

Definition chat_padded : Chat :=
  mkChat [] "  hi  " false (Some {| readyState := OPEN |}) true.

(** C5, as stated, fails: [trim] only guards the submission; the text
    that goes out is the input with its surrounding blanks. *)
Lemma request_text_is_not_trimmed :
  accepted chat_padded = true
  /\ get (Some (VObj (messageData 42 chat_padded))) "user_message"
     = Some (VStr "  hi  ")
  /\ trim (input chat_padded) = "hi"
  /\ ~ sends_trimmed_text 42 chat_padded.
Proof.
  repeat split; try reflexivity.
  intros H. specialize (H eq_refl). discriminate H.
Qed.

(** C5, amended: an accepted submission makes one call of [send], and
    its request carries the clock reading as id (so requests made at
    different clock readings differ in their ids), the user identifier
    ["user123"], the session identifier ["session123"], the input text
    as typed, blanks included, and the search toggle. *)
Theorem request_of_submission (now : Z) (c : Chat) :
  accepted c = true ->
  snd (sendMessage now c)
  = [WsSend (VObj [ ("id", VNum now);
                    ("user_id", VStr "user123");
                    ("session_id", VStr "session123");
                    ("user_message", VStr (input c));
                    ("search", VBool (searchEnabled c)) ])]
  /\ forall now' c',
       now <> now' ->
       get (Some (VObj (messageData now c))) "id"
       <> get (Some (VObj (messageData now' c'))) "id".
Proof.
  intros Hacc. rewrite (sendMessage_accepted now c Hacc). split.
  - reflexivity.
  - intros now' c' Hne. simpl. congruence.
Qed.

Lemma request_of_submission_witness :
  accepted chat_padded = true
  /\ snd (sendMessage 42 chat_padded)
     = [WsSend (VObj [ ("id", VNum 42);
                       ("user_id", VStr "user123");
                       ("session_id", VStr "session123");
                       ("user_message", VStr "  hi  ");
                       ("search", VBool true) ])]
  /\ get (Some (VObj (messageData 42 chat_padded))) "id"
     <> get (Some (VObj (messageData 43 chat_padded))) "id".
Proof.
  split; [reflexivity|].
  destruct (request_of_submission 42 chat_padded eq_refl) as [Hreq Hid].
  split; [exact Hreq|].
  apply Hid. discriminate.
Defined.

(** ** Closing the connection *)

(** The close callback as the design document words it. *)
Definition close_clears_pending (c : Chat) : Prop :=
  loading (fst (onclose c)) = false
  /\ messages (fst (onclose c)) = messages c.

Definition chat_waiting : Chat :=
  mkChat [VObj (with_prop "user" (VStr "You") [("user_message", VStr "hi")])]
         "" true (Some {| readyState := CLOSED |}) false.

(** C6, as stated, fails: the close callback only logs, so a flag that
    was set stays set. *)
Lemma close_leaves_pending_set :
  loading (fst (onclose chat_waiting)) = true
  /\ ~ close_clears_pending chat_waiting.
Proof.
  split; [reflexivity|]. intros [H _]. discriminate H.
Qed.

(** C6, amended: the close callback changes neither the pending flag
    nor the transcript (nor any other cell); it only writes a log
    line. *)
Theorem onclose_changes_nothing (c : Chat) :
  fst (onclose c) = c
  /\ loading (fst (onclose c)) = loading c
  /\ messages (fst (onclose c)) = messages c
  /\ snd (onclose c) = [Log "WebSocket disconnected"].
Proof. repeat split. Qed.

(** ** Rejected submissions *)

Definition is_open (c : Chat) : bool :=
  match ws c with
  | Some {| readyState := OPEN |} => true
  | _ => false
  end.

Definition blank (s : string) : bool :=
  forallb is_space (list_ascii_of_string s).

(** The no-op rule as the design document words it. *)
Definition noop_unless_open_and_text (now : Z) (c : Chat) : Prop :=
  is_open c = false \/ blank (input c) = true ->
  messages (fst (sendMessage now c)) = messages c
  /\ loading (fst (sendMessage now c)) = loading c
  /\ forall payload, ~ In (WsSend payload) (snd (sendMessage now c)).

Definition chat_closed : Chat :=
  mkChat [] "hi" false (Some {| readyState := CLOSED |}) false.

(** C7, as stated, fails: the guard tests that a socket has been
    stored, not that it is open, so a submission on a closed socket
    still appends the entry and sets the flag. *)
Lemma submission_on_closed_socket :
  is_open chat_closed = false
  /\ messages (fst (sendMessage 7 chat_closed)) = [user_entry 7 chat_closed]
  /\ loading (fst (sendMessage 7 chat_closed)) = true
  /\ ~ noop_unless_open_and_text 7 chat_closed.
Proof.
  repeat split; try reflexivity.
  intros H. destruct H as [H _]; [left; reflexivity|]. discriminate H.
Qed.

Lemma trimStart_blank (s : string) :
  blank s = true -> trimStart s = "".
Proof.
  unfold blank. induction s as [|a s IH]; simpl; [reflexivity|].
  intros H. apply andb_prop in H. destruct H as [Ha Hs].
  rewrite Ha. now apply IH.
Qed.

Lemma trim_blank (s : string) : blank s = true -> trim s = "".
Proof. intros H. unfold trim. now rewrite trimStart_blank. Qed.

(** C7, amended: a submission made while no socket has been stored, or
    while the stored socket is still connecting, or with an empty or
    all-blank text, changes no cell of the state (no entry, flag
    untouched) and sends nothing. *)
Theorem rejected_submission_is_noop (now : Z) (c : Chat) :
  ws c = None
  \/ (exists sock, ws c = Some sock /\ readyState sock = CONNECTING)
  \/ blank (input c) = true ->
  fst (sendMessage now c) = c
  /\ forall payload, ~ In (WsSend payload) (snd (sendMessage now c)).
Proof.
  intros H. unfold sendMessage.
  destruct H as [E | [[sock [E Hs]] | Hb]].
  - rewrite E. split; [reflexivity|]. intros p [].
  - rewrite E. unfold send_throws. rewrite Hs.
    destruct (nonempty (trim (input c))); (split; [reflexivity|]);
      intros p Hin; simpl in Hin; [destruct Hin as [Hin | []]; discriminate|].
    destruct Hin.
  - rewrite (trim_blank _ Hb). simpl.
    destruct (ws c); (split; [reflexivity|]); intros p [].
Qed.

Lemma rejected_submission_is_noop_witness :
  let c := mkChat [] "   " false (Some {| readyState := OPEN |}) false in
  blank (input c) = true
  /\ fst (sendMessage 7 c) = c
  /\ forall payload, ~ In (WsSend payload) (snd (sendMessage 7 c)).
Proof.
  intros c. split; [reflexivity|].
  apply (rejected_submission_is_noop 7 c). right. right. reflexivity.
Defined.

(** ** The pending flag *)

(** C10: no inbound frame (reasoning, final, carrying search results
    or not, malformed) changes the pending flag, nor does any other
    callback but [sendMessage], which leaves it alone when it rejects
    the submission and sets it when it accepts it. *)
Theorem loading_written_by_submit_only (c : Chat) (cb : Callback) :
  loading (fst (step c cb))
  = match cb with
    | SendMessage _ => if accepted c then true else loading c
    | _ => loading c
    end.
Proof.
  destruct cb as [|[data|]| |now|text|on]; try reflexivity.
  simpl. destruct (accepted c) eqn:E.
  - now rewrite (sendMessage_accepted now c E).
  - now rewrite (sendMessage_rejected now c E).
Qed.

(** ** The markup renderer *)

Lemma lazy_close_shorter (s inner after : string) :
  lazy_close s = Some (inner, after) ->
  String.length after < String.length s.
Proof.
  revert inner. induction s as [|a s IH]; intros inner; [discriminate|].
  simpl. destruct s as [|b rest]; [discriminate|].
  destruct (is_star a && is_star b).
  - intros H. inversion H; subst. simpl. lia.
  - destruct (is_line_terminator a); [discriminate|].
    destruct (lazy_close (String b rest)) as [[i r]|] eqn:E; [|discriminate].
    intros H. inversion H; subst.
    specialize (IH _ eq_refl). simpl in *. lia.
Qed.

Lemma match_bold_shorter (s m rest : string) :
  match_bold s = Some (m, rest) ->
  String.length rest < String.length s.
Proof.
  unfold match_bold. destruct s as [|a [|b s]]; try discriminate.
  destruct (is_star a && is_star b); [|discriminate].
  destruct (lazy_close s) as [[i r]|] eqn:E; [|discriminate].
  intros H. inversion H; subst.
  apply lazy_close_shorter in E. simpl. lia.
Qed.

(** The fuel of [split_bold] is enough: any larger amount yields the
    same chunks, and the loop always returns at least one chunk. *)
Lemma split_loop_fuel (f1 : nat) :
  forall f2 pending s,
    String.length s < f1 -> String.length s < f2 ->
    split_loop f1 pending s = split_loop f2 pending s
    /\ split_loop f1 pending s <> [].
Proof.
  induction f1 as [|f1 IH]; intros f2 pending s H1 H2; [lia|].
  destruct f2 as [|f2]; [lia|].
  simpl. destruct s as [|c s']; [split; [reflexivity|discriminate]|].
  destruct (match_bold (String c s')) as [[m rest]|] eqn:E.
  - apply match_bold_shorter in E. split; [|discriminate].
    do 2 f_equal. apply IH; simpl in *; lia.
  - apply IH; simpl in *; lia.
Qed.

Lemma split_bold_nonempty (line : string) : split_bold line <> [].
Proof.
  unfold split_bold.
  apply (split_loop_fuel _ (S (String.length line))); lia.
Qed.

Lemma render_chunk_strong_iff (chunk : string) :
  (exists t, render_chunk chunk = Strong t)
  <-> startsWith chunk "**" = true /\ endsWith chunk "**" = true.
Proof.
  unfold render_chunk.
  destruct (startsWith chunk "**"), (endsWith chunk "**"); simpl; split;
    try (intros [t H]; discriminate H);
    try (intros [H1 H2]; discriminate);
    eauto.
Qed.

(** C3 is what the pattern of the split asks for (a delimiter pair
    around some text is at least four characters long), but the test
    applied to the chunks does not: it looks at the first two and the
    last two characters, which overlap in a chunk of two or three
    asterisks.  [formatMessage "**"] is one row holding an emphasized
    segment with empty text, not the plain segment ["**"]; a chunk
    ["***"] and the ["**"] left after a closed pair go the same way. *)
Theorem lone_delimiter_is_emphasized :
  split_bold "**" = ["**"]
  /\ formatMessage "**" = [[Strong ""; Br]]
  /\ formatMessage "**" <> [[Plain "**"; Br]]
  /\ render_chunk "***" = Strong ""
  /\ render_line "**x****" = [Plain ""; Strong "x"; Strong ""; Br].
Proof. repeat split; try reflexivity. discriminate. Qed.

(** On chunks of four characters or more the test is the one of C3. *)
Lemma render_chunk_long (chunk : string) :
  4 <= String.length chunk ->
  render_chunk chunk
  = if startsWith chunk "**" && endsWith chunk "**"
    then Strong (substring 2 (String.length chunk - 4) chunk)
    else Plain chunk.
Proof.
  intros H. unfold render_chunk, slice_2_m2.
  destruct (startsWith chunk "**" && endsWith chunk "**"); [|reflexivity].
  replace (Nat.min 2 (String.length chunk)) with 2 by lia.
  replace (String.length chunk - 2 - 2) with (String.length chunk - 4) by lia.
  reflexivity.
Qed.

(** ** The search-result view *)

Lemma In_filter_Boolean (entries : list Entry) (item : ResultItem) :
  In item (filter_Boolean entries) <-> In (Some item) entries.
Proof.
  induction entries as [|[x|] rest IH]; simpl.
  - tauto.
  - rewrite IH. split; (intros [H | H]; [left; congruence | right; exact H]).
  - rewrite IH. split; [auto|]. intros [H | H]; [discriminate|exact H].
Qed.

Section ViewProperties.

Variable formatDate : string -> string.

Lemma map_opt_group (results : Results) (cats : list string) :
  Forall (fun cat => displayable results cat = true) cats ->
  exists view,
    map_opt (group formatDate results) cats = Some view
    /\ map heading view = cats
    /\ Forall (fun g =>
                 exists entries,
                   lookup results (heading g) = Some entries
                   /\ cards g = map (card formatDate (heading g))
                                    (filter_Boolean entries))
              view.
Proof.
  induction 1 as [|cat cats Hd _ [view [Hv [Hh Hg]]]].
  - exists []. repeat split. constructor.
  - unfold displayable in Hd.
    destruct (lookup results cat) as [entries|] eqn:E; [|discriminate].
    exists (mkGroup cat (map (card formatDate cat) (filter_Boolean entries))
              :: view).
    simpl. unfold group at 1. rewrite E, Hv. split; [reflexivity|].
    split; [simpl; now rewrite Hh|].
    constructor; [|exact Hg]. exists entries. simpl. auto.
Qed.

(** The displayability rule as the design document words it: a
    category is shown exactly when something is left of its sequence
    once the nulls are removed. *)
Definition shown_iff_items_left (results : Results) : Prop :=
  exists view,
    SearchResults formatDate results = Some view
    /\ forall category,
         In category (map heading view)
         <-> exists entries,
               lookup results category = Some entries
               /\ filter_Boolean entries <> [].

(** What the component does: the view is always produced; a category
    is shown exactly when its sequence is there and is non-empty as
    received, nulls counted; and the cards of a shown category are
    those of the non-null entries of its sequence, in order. *)
Lemma shown_iff_sequence_nonempty (results : Results) :
  exists view,
    SearchResults formatDate results = Some view
    /\ (forall category,
           In category (map heading view)
           <-> exists entries,
                 lookup results category = Some entries /\ entries <> [])
    /\ Forall (fun g =>
                 exists entries,
                   lookup results (heading g) = Some entries
                   /\ cards g = map (card formatDate (heading g))
                                    (filter_Boolean entries)
                   /\ forall item,
                        In item (filter_Boolean entries)
                        <-> In (Some item) entries)
              view.
Proof.
  unfold SearchResults.
  destruct (map_opt_group results
              (filter (displayable results) (map fst results)))
    as [view [Hv [Hh Hg]]].
  { apply Forall_forall. intros cat Hin. now apply filter_In in Hin. }
  exists view. split; [exact Hv|]. split.
  - intros category. rewrite Hh, filter_In. unfold displayable. split.
    + intros [_ Hd].
      destruct (lookup results category) as [entries|]; [|discriminate].
      exists entries. split; [reflexivity|].
      intros ->. discriminate Hd.
    + intros [entries [Hl Hne]]. rewrite Hl. split.
      * unfold lookup in Hl. clear - Hl.
        induction results as [|[k v] rest IH]; simpl in *; [discriminate|].
        destruct (String.eqb category k) eqn:E.
        -- left. symmetry. now apply String.eqb_eq.
        -- right. now apply IH.
      * destruct entries; [congruence|reflexivity].
  - eapply Forall_impl; [|exact Hg].
    intros g [entries [Hl Hc]]. exists entries.
    split; [exact Hl|]. split; [exact Hc|].
    intros item. apply In_filter_Boolean.
Qed.

(** The rule of the design document holds of every result set in which
    each non-empty sequence has some entry that is not null. *)
Lemma shown_iff_items_left_when_some_item (results : Results) :
  (forall category entries,
      lookup results category = Some entries ->
      entries <> [] -> filter_Boolean entries <> []) ->
  shown_iff_items_left results.
Proof.
  intros Hsome.
  destruct (shown_iff_sequence_nonempty results) as [view [Hv [Hiff _]]].
  exists view. split; [exact Hv|].
  intros category. rewrite Hiff. split.
  - intros [entries [Hl Hne]]. exists entries. split; [exact Hl|].
    now apply (Hsome category).
  - intros [entries [Hl Hne]]. exists entries. split; [exact Hl|].
    intros ->. now apply Hne.
Qed.

(** The image rule as the design document words it: [image], else the
    first of [thumbnails], else nothing. *)
Definition resolved_image (item : ResultItem) : list Img :=
  if present (image item) then [mkImg (image item) (title item)]
  else match thumbnails item with
       | Some (t :: _) => [mkImg (Some t) (title item)]
       | _ => []
       end.

Definition has_thumbnail (item : ResultItem) : bool :=
  match thumbnails item with
  | Some (_ :: _) => true
  | _ => false
  end.

(** C9, amended: the card shows [image] when it is present and
    non-empty, and shows the first of [thumbnails] when that sequence
    is non-empty, each on its own: with at most one of the two
    available that is the image of the rule above, and with both the
    card shows two images, [image] first. *)
Theorem card_images (item : ResultItem) :
  (present (image item) && has_thumbnail item = false ->
   card_imgs item = resolved_image item)
  /\ (present (image item) && has_thumbnail item = true ->
      exists t,
        option_map (fun ts => nth_error ts 0) (thumbnails item)
        = Some (Some t)
        /\ card_imgs item
           = [mkImg (image item) (title item); mkImg (Some t) (title item)]).
Proof.
  unfold card_imgs, resolved_image, has_thumbnail.
  destruct (present (image item)), (thumbnails item) as [[|t ts]|];
    simpl; split; intros H; try discriminate; try reflexivity.
  exists t. split; reflexivity.
Qed.

End ViewProperties.

Definition only_nulls : Results := [("videos", Some []); ("news", Some [None])].

(** C8 is what the comment on the category filter asks for (non-empty
    categories), but the emptiness test runs on the sequence as
    received, before the nulls are dropped: a category holding only
    nulls is shown, with no card under its heading. *)
Theorem category_of_nulls_is_shown :
  SearchResults (fun iso => iso) only_nulls = Some [mkGroup "news" []]
  /\ ~ shown_iff_items_left (fun iso => iso) only_nulls.
Proof.
  split; [reflexivity|].
  intros [view [Hv H]]. vm_compute in Hv. inversion Hv; subst.
  destruct (H "news") as [Hshown _].
  destruct Hshown as [entries [Hl Hne]]; [simpl; auto|].
  vm_compute in Hl. inversion Hl; subst. apply Hne. reflexivity.
Qed.

Lemma search_view_example :
  SearchResults (fun iso => iso)
    [("videos", Some []);
     ("news", Some [Some (mkItem None None (Some "X") None None None None
                                 (Some "http://x") None)])]
  = Some [mkGroup "news"
            [mkCard [] (Some "X") None None (Some "http://x") "Read more"]].
Proof. reflexivity. Qed.

Definition item_with_both : ResultItem :=
  mkItem (Some "a.png") (Some ["b.png"; "c.png"]) (Some "T")
         None None None None None None.

(** C9, as stated, fails: the two image blocks are independent, so an
    item with both [image] and [thumbnails] shows two images. *)
Lemma both_images_are_shown :
  card_imgs item_with_both
  = [mkImg (Some "a.png") (Some "T"); mkImg (Some "b.png") (Some "T")]
  /\ resolved_image item_with_both = [mkImg (Some "a.png") (Some "T")]
  /\ card_imgs item_with_both <> resolved_image item_with_both.
Proof. repeat split; try reflexivity. discriminate. Qed.

Lemma card_images_witness :
  let item := mkItem None (Some ["b.png"]) (Some "T")
                     None None None None None None in
  (present (image item) && has_thumbnail item = false
   /\ card_imgs item = resolved_image item)
  /\ (present (image item_with_both) && has_thumbnail item_with_both = true
      /\ exists t,
           option_map (fun ts => nth_error ts 0) (thumbnails item_with_both)
           = Some (Some t)
           /\ card_imgs item_with_both
              = [mkImg (image item_with_both) (title item_with_both);
                 mkImg (Some t) (title item_with_both)]).
Proof.
  intros item. split; (split; [reflexivity|]).
  - apply (proj1 (card_images item)). reflexivity.
  - apply (proj2 (card_images item_with_both)). reflexivity.
Defined.

(** * Further properties of the reducer *)

Lemma overrides_last (prev : list value) :
  overrides prev = true ->
  exists l a, prev = l ++ [a] /\ kept a = false.
Proof.
  intros H. destruct prev as [|x prev]; [discriminate|].
  destruct (exists_last (l := x :: prev)) as [l [a E]]; [discriminate|].
  exists l, a. split; [exact E|].
  rewrite E, overrides_snoc in H. unfold kept.
  destruct (chain_of_thought (Some a)), (from_You (Some a));
    simpl in H; try discriminate; reflexivity.
Qed.

Lemma reduce_snoc (d : value) (prev : list value) :
  exists l, reduce d prev = l ++ [d].
Proof.
  unfold reduce.
  destruct (chain_of_thought (Some d)); [eauto|].
  destruct (overrides prev); eauto.
Qed.

(** Whatever the mix of reasoning and final events, and whatever the
    transcript they meet, the transcript after a non-empty run of
    events ends with the last event received; in particular it is not
    empty. *)
Theorem newest_event_is_last (evs prev : list value) :
  evs <> [] ->
  last_entry (reduce_all evs prev) = last_entry evs.
Proof.
  intros Hne. destruct (exists_last Hne) as [evs' [d ->]].
  unfold reduce_all. rewrite fold_left_app. simpl.
  destruct (reduce_snoc d (fold_left (fun acc data => reduce data acc) evs' prev))
    as [l ->].
  now rewrite !last_entry_snoc.
Qed.

Lemma newest_event_is_last_witness :
  let evs := [thinking "a"; VObj [("message", VStr "b")]; VNull] in
  evs <> []
  /\ last_entry (reduce_all evs [VObj [("message", VStr "old")]])
     = last_entry evs.
Proof.
  split; [discriminate|]. apply newest_event_is_last. discriminate.
Defined.

Lemma reduce_kept (d : value) (prev : list value) :
  filter kept (reduce d prev) = filter kept prev ++ filter kept [d].
Proof.
  unfold reduce. destruct (chain_of_thought (Some d)) eqn:Hd.
  - now rewrite filter_app, filter_kept_idem.
  - destruct (overrides prev) eqn:Ho.
    + destruct (overrides_last prev Ho) as [l [a [-> Ha]]].
      rewrite slice_0_m1_snoc, !filter_app. simpl. rewrite Ha.
      now rewrite app_nil_r.
    + now rewrite filter_app.
Qed.

Lemma kept_user_entry (now : Z) (c : Chat) : kept (user_entry now c) = true.
Proof. reflexivity. Qed.

Lemma step_kept (c : Chat) (cb : Callback) :
  exists more,
    filter kept (messages (fst (step c cb)))
    = filter kept (messages c) ++ more.
Proof.
  destruct cb as [|[data|]| |now|text|on]; simpl;
    try (exists []; now rewrite app_nil_r).
  - rewrite reduce_kept. eauto.
  - destruct (accepted c) eqn:E.
    + rewrite (sendMessage_accepted now c E). simpl.
      rewrite filter_app. eauto.
    + rewrite (sendMessage_rejected now c E).
      exists []; now rewrite app_nil_r.
Qed.

(** Over any run of callbacks (frames of any kind, submissions, edits
    of the input, open and close), the user entries and the reasoning
    entries of the transcript are only ever added to: those present
    before the run are all there after it, in the same order and ahead
    of the new ones. *)
Theorem kept_entries_only_grow (cbs : list Callback) (c : Chat) :
  exists more,
    filter kept (messages (run c cbs)) = filter kept (messages c) ++ more.
Proof.
  revert c. induction cbs as [|cb cbs IH]; intros c.
  - exists []. simpl. now rewrite app_nil_r.
  - destruct (IH (fst (step c cb))) as [more2 H2].
    destruct (step_kept c cb) as [more1 H1].
    exists (more1 ++ more2).
    change (run c (cb :: cbs)) with (run (fst (step c cb)) cbs).
    rewrite H2, H1. now rewrite app_assoc.
Qed.

(** A final event touches the last slot only: every entry before the
    last one is where it was, and the transcript keeps its length or
    grows by one. *)
Theorem final_event_touches_last_slot (d : value) (prev : list value) :
  chain_of_thought (Some d) = false ->
  firstn (List.length prev - 1) (reduce d prev)
  = firstn (List.length prev - 1) prev
  /\ (List.length (reduce d prev) = List.length prev
      \/ List.length (reduce d prev) = S (List.length prev)).
Proof.
  intros Hd. unfold reduce. rewrite Hd.
  destruct (overrides prev) eqn:Ho.
  - destruct (overrides_last prev Ho) as [l [a [-> _]]].
    rewrite slice_0_m1_snoc, !length_app. simpl.
    replace (List.length l + 1 - 1) with (List.length l + 0) by lia.
    rewrite !firstn_app_2. split; [reflexivity|]. left. reflexivity.
  - split.
    + rewrite firstn_app.
      replace (List.length prev - 1 - List.length prev) with 0 by lia.
      simpl. apply app_nil_r.
    + right. rewrite length_app. simpl. lia.
Qed.

Lemma final_event_touches_last_slot_witness :
  let d := VObj [("message", VStr "4")] in
  let prev := [VObj [("user", VStr "You")]; VObj [("message", VStr "")]] in
  chain_of_thought (Some d) = false
  /\ firstn (List.length prev - 1) (reduce d prev)
     = firstn (List.length prev - 1) prev
  /\ (List.length (reduce d prev) = List.length prev
      \/ List.length (reduce d prev) = S (List.length prev)).
Proof.
  split; [reflexivity|]. apply final_event_touches_last_slot. reflexivity.
Defined.

Lemma reasoning_all_kept (d : value) (prev : list value) :
  chain_of_thought (Some d) = true ->
  forallb kept (reduce d prev) = true.
Proof.
  intros Hd. rewrite (reduce_reasoning d prev Hd).
  assert (Hk : kept d = true) by (unfold kept; now rewrite Hd).
  rewrite forallb_app. simpl. rewrite Hk. simpl.
  rewrite andb_true_r. apply forallb_forall.
  intros x Hx. now apply filter_In in Hx.
Qed.

(** A reasoning event leaves only user and reasoning entries in the
    transcript: every other entry, wherever it stood, is gone, so the
    transcript grows by one entry at most. *)
Theorem reasoning_event_purges (d : value) (prev : list value) :
  chain_of_thought (Some d) = true ->
  forallb kept (reduce d prev) = true
  /\ List.length (reduce d prev) <= S (List.length prev).
Proof.
  intros Hd. split; [now apply reasoning_all_kept|].
  rewrite (reduce_reasoning d prev Hd), length_app. simpl.
  pose proof (filter_length_le kept prev). lia.
Qed.

Lemma reasoning_event_purges_witness :
  let prev := [VObj [("message", VStr "a")]; VNull; VNum 3] in
  chain_of_thought (Some (thinking "x")) = true
  /\ forallb kept (reduce (thinking "x") prev) = true
  /\ List.length (reduce (thinking "x") prev) <= S (List.length prev).
Proof.
  split; [reflexivity|]. apply reasoning_event_purges. reflexivity.
Defined.

(** No two neighbouring entries are both plain assistant entries
    (neither the user's nor reasoning entries). *)
Fixpoint calm (l : list value) : bool :=
  match l with
  | a :: (b :: _) as rest => (kept a || kept b) && calm rest
  | _ => true
  end.

Lemma last_entry_cons (a b : value) (l : list value) :
  last_entry (a :: b :: l) = last_entry (b :: l).
Proof.
  unfold last_entry. simpl. now rewrite Nat.sub_0_r.
Qed.

Lemma calm_snoc (l : list value) (d : value) :
  calm (l ++ [d])
  = calm l && match last_entry l with
              | Some a => kept a || kept d
              | None => true
              end.
Proof.
  induction l as [|a l IH]; [reflexivity|].
  destruct l as [|b l].
  - simpl. now rewrite andb_true_r.
  - rewrite last_entry_cons.
    change (calm ((a :: b :: l) ++ [d]))
      with ((kept a || kept b) && calm ((b :: l) ++ [d])).
    rewrite IH.
    change (calm (a :: b :: l)) with ((kept a || kept b) && calm (b :: l)).
    now rewrite andb_assoc.
Qed.

Lemma calm_all_kept (l : list value) : forallb kept l = true -> calm l = true.
Proof.
  induction l as [|a l IH]; [reflexivity|].
  intros H. simpl in H. apply andb_prop in H. destruct H as [Ha Hl].
  destruct l as [|b l]; [reflexivity|].
  change (calm (a :: b :: l)) with ((kept a || kept b) && calm (b :: l)).
  rewrite Ha, (IH Hl). reflexivity.
Qed.

Lemma reduce_calm (d : value) (prev : list value) :
  calm prev = true -> calm (reduce d prev) = true.
Proof.
  intros Hc. destruct (chain_of_thought (Some d)) eqn:Hd.
  - apply calm_all_kept. now apply reasoning_all_kept.
  - unfold reduce. rewrite Hd. destruct (overrides prev) eqn:Ho.
    + destruct (overrides_last prev Ho) as [l [a [-> Ha]]].
      rewrite slice_0_m1_snoc. rewrite calm_snoc in Hc |- *.
      apply andb_prop in Hc. destruct Hc as [Hl Hlast]. rewrite Hl. simpl.
      destruct (last_entry l) as [z|]; [|reflexivity].
      rewrite Ha, orb_false_r in Hlast. now rewrite Hlast.
    + rewrite calm_snoc, Hc. simpl.
      destruct prev as [|x prev]; [reflexivity|].
      destruct (exists_last (l := x :: prev)) as [l [a E]]; [discriminate|].
      rewrite E in Ho |- *. rewrite last_entry_snoc.
      rewrite overrides_snoc in Ho. unfold kept at 1.
      destruct (chain_of_thought (Some a)), (from_You (Some a));
        simpl in Ho; try discriminate; reflexivity.
Qed.

(** Started on a transcript without two neighbouring plain assistant
    entries (the empty one the component starts with, say), no run of
    callbacks ever produces two of them side by side: streamed answers
    do not pile up. *)
Theorem plain_entries_never_pile_up (cbs : list Callback) (c : Chat) :
  calm (messages c) = true ->
  calm (messages (run c cbs)) = true.
Proof.
  revert c. induction cbs as [|cb cbs IH]; intros c Hc; [exact Hc|].
  change (run c (cb :: cbs)) with (run (fst (step c cb)) cbs).
  apply IH.
  destruct cb as [|[data|]| |now|text|on]; simpl; try exact Hc.
  - now apply reduce_calm.
  - destruct (accepted c) eqn:E.
    + rewrite (sendMessage_accepted now c E). simpl.
      rewrite calm_snoc, Hc, kept_user_entry. simpl.
      destruct (last_entry (messages c)); [apply orb_true_r|reflexivity].
    + now rewrite (sendMessage_rejected now c E).
Qed.

Lemma plain_entries_never_pile_up_witness :
  let cbs := [OnOpen; SendMessage 5; OnMessage (Some (VObj [("message", VStr "a")]));
              OnMessage (Some (VObj [("message", VStr "ab")])); OnMessage None;
              OnMessage (Some (thinking "t")); OnClose] in
  calm (messages chat0) = true
  /\ calm (messages (run chat0 cbs)) = true.
Proof.
  split; [reflexivity|]. apply plain_entries_never_pile_up. reflexivity.
Defined.

(** The frames of a run that parsed. *)
Fixpoint parsed_frames (frames : list (option value)) : list value :=
  match frames with
  | [] => []
  | Some data :: rest => data :: parsed_frames rest
  | None :: rest => parsed_frames rest
  end.

(** A run of inbound frames changes the transcript only, and changes
    it as the reducer folded over the frames that parsed: a malformed
    frame leaves no trace, and neither the input, the pending flag, the
    socket nor the search switch is touched. *)
Theorem frames_fold_into_transcript (frames : list (option value)) (c : Chat) :
  run c (map OnMessage frames)
  = mkChat (reduce_all (parsed_frames frames) (messages c))
           (input c) (loading c) (ws c) (searchEnabled c).
Proof.
  revert c. induction frames as [|f frames IH]; intros c.
  - now destruct c.
  - change (run c (map OnMessage (f :: frames)))
      with (run (fst (onmessage f c)) (map OnMessage frames)).
    rewrite IH. destruct f as [data|]; reflexivity.
Qed.

(** ** Further properties of sendMessage *)

Lemma trimStart_cases (s : string) :
  (blank s = true /\ trimStart s = "")
  \/ (blank s = false
      /\ exists c t, trimStart s = String c t /\ is_space c = false).
Proof.
  unfold blank. induction s as [|a s IH]; simpl; [now left|].
  destruct (is_space a) eqn:Ha; simpl.
  - exact IH.
  - right. split; [reflexivity|]. now exists a, s.
Qed.

Lemma nonempty_trim (s : string) : nonempty (trim s) = negb (blank s).
Proof.
  unfold trim.
  destruct (trimStart_cases s) as [[Hb ->] | [Hb [c [t [-> Hc]]]]];
    rewrite Hb; [reflexivity|].
  simpl. rewrite Hc. now destruct (trimEnd t).
Qed.

(** [sendMessage] leaves the state as it is exactly when it does not
    accept the submission, and it accepts exactly when a socket has
    been stored, that socket is past connecting, and the input holds
    some character that is not white space. *)
Theorem submission_accepted_iff (now : Z) (c : Chat) :
  (fst (sendMessage now c) = c <-> accepted c = false)
  /\ (accepted c = true
      <-> exists sock,
            ws c = Some sock
            /\ readyState sock <> CONNECTING
            /\ blank (input c) = false).
Proof.
  split.
  - split; [|apply sendMessage_rejected].
    destruct (accepted c) eqn:E; [|reflexivity].
    rewrite (sendMessage_accepted now c E). simpl. intros H.
    apply (f_equal (fun x => List.length (messages x))) in H.
    simpl in H. rewrite length_app in H. simpl in H. lia.
  - unfold accepted. destruct (ws c) as [sock|].
    + rewrite nonempty_trim. unfold send_throws. split.
      * intros H. apply andb_prop in H. destruct H as [Hb Hs].
        exists sock. split; [reflexivity|]. split.
        -- intros Hr. rewrite Hr in Hs. discriminate.
        -- now apply negb_true_iff in Hb.
      * intros [sock' [E [Hr Hb]]]. inversion E; subst sock'.
        rewrite Hb. simpl.
        destruct (readyState sock) eqn:R; try reflexivity. congruence.
    + split; [discriminate|]. intros [sock [E _]]. discriminate.
Qed.

(** An accepted submission empties the input, so submitting again
    right away (a second press of the button) does nothing: one
    entry, one request. *)
Theorem second_press_is_noop (now now' : Z) (c : Chat) :
  accepted c = true ->
  input (fst (sendMessage now c)) = ""
  /\ sendMessage now' (fst (sendMessage now c))
     = (fst (sendMessage now c), []).
Proof.
  intros E. rewrite (sendMessage_accepted now c E). simpl.
  split; [reflexivity|].
  unfold sendMessage. simpl. now destruct (ws c).
Qed.

Lemma second_press_is_noop_witness :
  accepted chat0 = true
  /\ input (fst (sendMessage 1 chat0)) = ""
  /\ sendMessage 2 (fst (sendMessage 1 chat0))
     = (fst (sendMessage 1 chat0), []).
Proof.
  split; [reflexivity|]. apply second_press_is_noop. reflexivity.
Defined.

(** * Further properties of formatMessage *)

Lemma sapp_nil_r (s : string) : (s ++ "")%string = s.
Proof. induction s as [|c s IH]; simpl; [reflexivity|now rewrite IH]. Qed.

Lemma sapp_assoc (a b c : string) :
  ((a ++ b) ++ c)%string = (a ++ (b ++ c))%string.
Proof. induction a as [|x a IH]; simpl; [reflexivity|now rewrite IH]. Qed.

Lemma slength_app (a b : string) :
  String.length (a ++ b) = String.length a + String.length b.
Proof. induction a as [|x a IH]; simpl; [reflexivity|now rewrite IH]. Qed.

Lemma concat_nosep_cons (x : string) (xs : list string) :
  String.concat "" (x :: xs) = (x ++ String.concat "" xs)%string.
Proof.
  destruct xs; simpl; [now rewrite sapp_nil_r|reflexivity].
Qed.

Lemma split_lines_nonempty (s : string) : split_lines s <> [].
Proof.
  induction s as [|c s IH]; simpl; [discriminate|].
  destruct (Ascii.eqb c "010"); [discriminate|].
  destruct (split_lines s); discriminate.
Qed.

Definition line_feeds (s : string) : nat :=
  List.length (filter (fun c => Ascii.eqb c "010") (list_ascii_of_string s)).

Lemma split_lines_facts (s : string) :
  String.concat (String "010" "") (split_lines s) = s
  /\ List.length (split_lines s) = S (line_feeds s)
  /\ Forall (fun line => line_feeds line = 0) (split_lines s).
Proof.
  unfold line_feeds. induction s as [|c s [IHj [IHn IHf]]].
  - repeat split. repeat constructor.
  - simpl. destruct (Ascii.eqb c "010") eqn:E.
    + apply Ascii.eqb_eq in E. subst c. simpl.
      pose proof (split_lines_nonempty s) as Hne.
      destruct (split_lines s) as [|l ls] eqn:Es; [congruence|].
      split; [now rewrite IHj|]. split; [now rewrite IHn|].
      constructor; [reflexivity|exact IHf].
    + pose proof (split_lines_nonempty s) as Hne.
      destruct (split_lines s) as [|l ls] eqn:Es; [congruence|].
      split; [|split].
      * rewrite <- IHj. destruct ls; reflexivity.
      * exact IHn.
      * inversion IHf as [|? ? Hl Hls]; subst.
        constructor; [|exact Hls]. simpl. now rewrite E.
Qed.

Lemma lazy_close_spec (s inner after : string) :
  lazy_close s = Some (inner, after) ->
  s = (inner ++ "**" ++ after)%string
  /\ forallb (fun c => negb (is_line_terminator c))
             (list_ascii_of_string inner) = true.
Proof.
  revert inner. induction s as [|a s IH]; intros inner; [discriminate|].
  simpl. destruct s as [|b rest]; [discriminate|].
  destruct (is_star a && is_star b) eqn:E.
  - intros H. inversion H; subst.
    apply andb_prop in E. destruct E as [Ea Eb].
    apply Ascii.eqb_eq in Ea, Eb. subst. split; reflexivity.
  - destruct (is_line_terminator a) eqn:T; [discriminate|].
    destruct (lazy_close (String b rest)) as [[i r]|] eqn:L; [|discriminate].
    intros H. inversion H; subst.
    destruct (IH _ eq_refl) as [Hs Hi]. split.
    + rewrite Hs. reflexivity.
    + simpl. now rewrite T, Hi.
Qed.

Lemma match_bold_spec (s m rest : string) :
  match_bold s = Some (m, rest) ->
  exists inner,
    m = ("**" ++ inner ++ "**")%string
    /\ s = (m ++ rest)%string
    /\ forallb (fun c => negb (is_line_terminator c))
               (list_ascii_of_string inner) = true.
Proof.
  unfold match_bold. destruct s as [|a [|b s]]; try discriminate.
  destruct (is_star a && is_star b) eqn:E; [|discriminate].
  destruct (lazy_close s) as [[i r]|] eqn:L; [|discriminate].
  intros H. inversion H; subst.
  apply andb_prop in E. destruct E as [Ea Eb].
  apply Ascii.eqb_eq in Ea, Eb. subst.
  destruct (lazy_close_spec _ _ _ L) as [Hs Hi].
  exists i. split; [reflexivity|]. split; [|exact Hi].
  rewrite Hs. simpl. now rewrite sapp_assoc.
Qed.

Lemma split_loop_concat (fuel : nat) :
  forall pending s,
    String.length s < fuel ->
    String.concat "" (split_loop fuel pending s) = (pending ++ s)%string.
Proof.
  induction fuel as [|fuel IH]; intros pending s Hf; [lia|].
  simpl. destruct s as [|c s'].
  - simpl. now rewrite sapp_nil_r.
  - destruct (match_bold (String c s')) as [[m rest]|] eqn:E.
    + pose proof (match_bold_shorter _ _ _ E) as Hlt.
      destruct (match_bold_spec _ _ _ E) as [inner [_ [Hs _]]].
      rewrite !concat_nosep_cons, IH by (simpl in *; lia).
      simpl. now rewrite Hs.
    + rewrite IH by (simpl in *; lia).
      rewrite sapp_assoc. reflexivity.
Qed.

(** [split] on the line feed loses nothing: joining the lines with line
    feeds gives the text back, there is one line more than there are
    line feeds (so the empty text is one empty line), and no line
    holds a line feed. *)
Theorem split_lines_join (s : string) :
  String.concat (String "010" "") (split_lines s) = s
  /\ List.length (split_lines s) = S (line_feeds s)
  /\ Forall (fun line => line_feeds line = 0) (split_lines s).
Proof. apply split_lines_facts. Qed.

(** The split on the delimiter pattern loses nothing either: the
    chunks of a line, put end to end, are the line. *)
Theorem split_bold_concat (line : string) :
  String.concat "" (split_bold line) = line.
Proof.
  unfold split_bold. now rewrite split_loop_concat by lia.
Qed.

Lemma substring_all (a b : string) :
  substring 0 (String.length a) (a ++ b) = a.
Proof. induction a as [|x a IH]; simpl; [now destruct b|now rewrite IH]. Qed.

Lemma substring_skip (a b : string) (n : nat) :
  substring (String.length a) n (a ++ b) = substring 0 n b.
Proof. induction a as [|x a IH]; simpl; [reflexivity|exact IH]. Qed.

Lemma endsWith_pair (a : string) : endsWith (a ++ "**") "**" = true.
Proof.
  unfold endsWith. rewrite slength_app.
  replace (String.length "**") with 2 by reflexivity.
  replace (String.length a + 2 - 2) with (String.length a) by lia.
  rewrite substring_skip.
  replace (2 <=? String.length a + 2) with true
    by (symmetry; apply Nat.leb_le; lia).
  reflexivity.
Qed.

Lemma slice_2_m2_pair (inner : string) :
  slice_2_m2 ("**" ++ inner ++ "**") = inner.
Proof.
  unfold slice_2_m2.
  replace (String.length ("**" ++ inner ++ "**"))
    with (String.length inner + 4)
    by (simpl; rewrite slength_app; simpl; lia).
  replace (Nat.min 2 (String.length inner + 4)) with 2 by lia.
  replace (String.length inner + 4 - 2 - 2) with (String.length inner) by lia.
  change (substring 2 (String.length inner) ("**" ++ inner ++ "**"))
    with (substring 0 (String.length inner) (inner ++ "**")).
  apply substring_all.
Qed.

Lemma render_chunk_pair (inner : string) :
  render_chunk ("**" ++ inner ++ "**") = Strong inner.
Proof.
  unfold render_chunk.
  replace (endsWith ("**" ++ inner ++ "**") "**") with true.
  - replace (startsWith ("**" ++ inner ++ "**") "**") with true
      by (symmetry; apply prefix_correct; simpl; now destruct (inner ++ "**")%string).
    rewrite slice_2_m2_pair. reflexivity.
  - symmetry. rewrite <- sapp_assoc. apply endsWith_pair.
Qed.

(** Whenever the pattern matches at the head of a text, the matched
    chunk is a delimiter pair around some text free of line
    terminators, the rest follows it, and the chunk is rendered as
    that inner text, emphasized, both delimiters stripped. *)
Theorem matched_pair_is_emphasized (s m rest : string) :
  match_bold s = Some (m, rest) ->
  exists inner,
    m = ("**" ++ inner ++ "**")%string
    /\ s = (m ++ rest)%string
    /\ forallb (fun c => negb (is_line_terminator c))
               (list_ascii_of_string inner) = true
    /\ render_chunk m = Strong inner.
Proof.
  intros H. destruct (match_bold_spec _ _ _ H) as [inner [Hm [Hs Hi]]].
  exists inner. repeat split; try assumption.
  rewrite Hm. apply render_chunk_pair.
Qed.

Lemma matched_pair_is_emphasized_witness :
  match_bold "**a*b** c**" = Some ("**a*b**", " c**")
  /\ exists inner,
       "**a*b**" = ("**" ++ inner ++ "**")%string
       /\ "**a*b** c**" = ("**a*b**" ++ " c**")%string
       /\ forallb (fun c => negb (is_line_terminator c))
                  (list_ascii_of_string inner) = true
       /\ render_chunk "**a*b**" = Strong inner.
Proof.
  split; [reflexivity|].
  apply (matched_pair_is_emphasized "**a*b** c**"). reflexivity.
Defined.

Definition starless (s : string) : bool :=
  forallb (fun c => negb (is_star c)) (list_ascii_of_string s).

Definition one_line (s : string) : bool :=
  forallb (fun c => negb (is_line_terminator c)) (list_ascii_of_string s).

Lemma match_bold_plain_head (c : ascii) (s : string) :
  is_star c = false -> match_bold (String c s) = None.
Proof. intros H. simpl. destruct s; [reflexivity|]. now rewrite H. Qed.

Lemma scan_plain (pre : string) :
  forall pending tail f,
    starless pre = true ->
    String.length (pre ++ tail) < f ->
    split_loop f pending (pre ++ tail) = split_loop f (pending ++ pre) tail.
Proof.
  unfold starless. induction pre as [|c pre IH]; intros pending tail f Hs Hf.
  - simpl. now rewrite sapp_nil_r.
  - simpl in Hs. apply andb_prop in Hs. destruct Hs as [Hc Hs].
    apply negb_true_iff in Hc.
    destruct f as [|f]; [lia|]. simpl in Hf.
    change (split_loop (S f) pending (String c pre ++ tail))
      with (match match_bold (String c (pre ++ tail)) with
            | Some (m, rest) => pending :: m :: split_loop f EmptyString rest
            | None => split_loop f (pending ++ String c EmptyString)
                                 (pre ++ tail)
            end).
    rewrite (match_bold_plain_head c _ Hc), IH by (assumption || lia).
    rewrite sapp_assoc.
    change (String c "" ++ pre)%string with (String c pre).
    rewrite slength_app in Hf.
    apply (split_loop_fuel f (S f)); lia.
Qed.

Lemma split_loop_plain (s pending : string) (f : nat) :
  starless s = true -> String.length s < f ->
  split_loop f pending s = [(pending ++ s)%string].
Proof.
  intros Hs Hf.
  pose proof (scan_plain s pending "" f Hs) as H.
  rewrite sapp_nil_r in H. rewrite H by assumption.
  destruct f; [lia|reflexivity].
Qed.

Lemma render_chunk_plain (chunk : string) :
  starless chunk = true -> render_chunk chunk = Plain chunk.
Proof.
  unfold render_chunk, startsWith, starless. intros H.
  destruct (prefix "**" chunk) eqn:P; [|reflexivity].
  apply prefix_correct in P.
  destruct chunk as [|c t]; [discriminate P|].
  simpl in H. apply andb_prop in H. destruct H as [Hc _].
  apply negb_true_iff in Hc.
  simpl in P. inversion P; subst c. discriminate Hc.
Qed.

Lemma lazy_close_plain (inner post : string) :
  starless inner = true -> one_line inner = true ->
  lazy_close (inner ++ "**" ++ post) = Some (inner, post).
Proof.
  unfold starless, one_line.
  induction inner as [|a inner IH]; intros Hs Hl; [reflexivity|].
  simpl in Hs, Hl.
  apply andb_prop in Hs. destruct Hs as [Ha Hs].
  apply andb_prop in Hl. destruct Hl as [Ht Hl].
  apply negb_true_iff in Ha, Ht.
  specialize (IH Hs Hl).
  change ((String a inner ++ "**" ++ post)%string)
    with (String a (inner ++ "**" ++ post)).
  destruct (inner ++ "**" ++ post)%string as [|b rest] eqn:E.
  - destruct inner; discriminate E.
  - simpl. rewrite Ha, Ht. simpl.
    change (match rest with
            | EmptyString => None
            | String b0 rest0 =>
                if is_star b && is_star b0 then Some (EmptyString, rest0)
                else if is_line_terminator b then None
                     else match lazy_close rest with
                          | Some (inner0, after) => Some (String b inner0, after)
                          | None => None
                          end
            end) with (lazy_close (String b rest)).
    now rewrite IH.
Qed.

Lemma match_bold_plain (inner post : string) :
  starless inner = true -> one_line inner = true ->
  match_bold ("**" ++ inner ++ "**" ++ post)
  = Some (("**" ++ inner ++ "**")%string, post).
Proof.
  intros Hs Hl.
  change (match_bold ("**" ++ inner ++ "**" ++ post))
    with (match lazy_close (inner ++ "**" ++ post) with
          | Some (i, after) => Some (("**" ++ i ++ "**")%string, after)
          | None => None
          end).
  now rewrite lazy_close_plain.
Qed.

Lemma split_loop_match (f : nat) (pending s m rest : string) :
  s <> "" ->
  match_bold s = Some (m, rest) ->
  split_loop (S f) pending s = pending :: m :: split_loop f "" rest.
Proof.
  intros Hne H. destruct s as [|c s]; [congruence|].
  change (split_loop (S f) pending (String c s))
    with (match match_bold (String c s) with
          | Some (m, rest) => pending :: m :: split_loop f EmptyString rest
          | None => split_loop f (pending ++ String c EmptyString) s
          end).
  now rewrite H.
Qed.

(** A delimiter pair around text without asterisks or line
    terminators, standing between two stretches of text without
    asterisks, is one row of three segments: the text before, the
    inner text emphasized, the text after. *)
Theorem emphasis_between_plain (pre inner post : string) :
  starless pre = true ->
  starless inner = true -> one_line inner = true ->
  starless post = true ->
  render_line (pre ++ "**" ++ inner ++ "**" ++ post)
  = [Plain pre; Strong inner; Plain post; Br].
Proof.
  intros Hpre Hin Hline Hpost.
  unfold render_line, split_bold.
  assert (Hlen : String.length (pre ++ "**" ++ inner ++ "**" ++ post)
                 = String.length pre + (String.length inner
                                       + (String.length post + 4))).
  { rewrite slength_app. simpl. rewrite slength_app. simpl. lia. }
  rewrite scan_plain by (assumption || lia).
  rewrite Hlen.
  erewrite split_loop_match;
    [|discriminate|now apply match_bold_plain].
  rewrite split_loop_plain by (assumption || lia).
  cbn [map app String.append].
  rewrite (render_chunk_plain pre Hpre), (render_chunk_plain post Hpost).
  change (String "*" (String "*" (inner ++ String "*" (String "*" ""))))%string
    with ("**" ++ inner ++ "**")%string.
  now rewrite render_chunk_pair.
Qed.

Lemma emphasis_between_plain_witness :
  (starless "" = true /\ starless "bold" = true /\ one_line "bold" = true
   /\ starless " and plain" = true)
  /\ render_line ("" ++ "**" ++ "bold" ++ "**" ++ " and plain")
     = [Plain ""; Strong "bold"; Plain " and plain"; Br].
Proof.
  split; [repeat split|].
  apply emphasis_between_plain; reflexivity.
Defined.

Lemma starless_lines (s : string) :
  starless s = true -> Forall (fun l => starless l = true) (split_lines s).
Proof.
  unfold starless. induction s as [|c s IH]; intros H.
  - repeat constructor.
  - simpl in H. apply andb_prop in H. destruct H as [Hc Hs].
    specialize (IH Hs). simpl.
    destruct (Ascii.eqb c "010"); [constructor; [reflexivity|exact IH]|].
    destruct (split_lines s) as [|l ls]; [repeat constructor; simpl; now rewrite Hc|].
    inversion IH; subst. constructor; [|assumption].
    simpl. now rewrite Hc.
Qed.

(** A text without asterisks is shown as it is: each of its lines is
    one plain segment holding the line, followed by the break. *)
Theorem plain_text_passes_through (text : string) :
  starless text = true ->
  formatMessage text = map (fun line => [Plain line; Br]) (split_lines text).
Proof.
  intros H. unfold formatMessage. apply map_ext_in.
  intros line Hin.
  pose proof (starless_lines text H) as Hall.
  rewrite Forall_forall in Hall. specialize (Hall line Hin).
  unfold render_line, split_bold.
  rewrite split_loop_plain by (assumption || lia).
  simpl. now rewrite render_chunk_plain.
Qed.

Lemma plain_text_passes_through_witness :
  let text := String "a" (String "010" (String "010" "b c")) in
  starless text = true
  /\ formatMessage text = [[Plain "a"; Br]; [Plain ""; Br]; [Plain "b c"; Br]].
Proof.
  split; [reflexivity|].
  apply (plain_text_passes_through
           (String "a" (String "010" (String "010" "b c")))).
  reflexivity.
Defined.

Lemma render_chunk_not_Br (chunk : string) : render_chunk chunk <> Br.
Proof.
  unfold render_chunk.
  destruct (startsWith chunk "**" && endsWith chunk "**"); discriminate.
Qed.

(** The rendered text has one row per line of the text, one more than
    its line feeds; every row holds at least one text segment and
    ends with its break, the only one in the row. *)
Theorem rows_of_formatMessage (text : string) :
  List.length (formatMessage text) = S (line_feeds text)
  /\ Forall (fun row =>
               exists segs,
                 row = segs ++ [Br]
                 /\ segs <> []
                 /\ Forall (fun sg => sg <> Br) segs)
            (formatMessage text).
Proof.
  unfold formatMessage. split.
  - rewrite length_map. apply split_lines_facts.
  - apply Forall_forall. intros row Hin.
    apply in_map_iff in Hin. destruct Hin as [line [<- _]].
    exists (map render_chunk (split_bold line)). split; [reflexivity|]. split.
    + pose proof (split_bold_nonempty line).
      destruct (split_bold line); [congruence|discriminate].
    + apply Forall_forall. intros sg Hsg.
      apply in_map_iff in Hsg. destruct Hsg as [chunk [<- _]].
      apply render_chunk_not_Br.
Qed.

(** * Properties of the rendered transcript *)

(** The text handed to [formatMessage] for an entry. *)
Definition text_of (msg : value) : option value :=
  or_value (get (Some msg) "user_message") (get (Some msg) "message").

Definition has_text (msg : value) : bool :=
  match text_of msg with
  | Some (VStr _) => true
  | _ => false
  end.

Lemma render_message_some_iff (msg : value) :
  (exists b, render_message msg = Some b) <-> has_text msg = true.
Proof.
  unfold has_text, text_of, render_message.
  destruct msg as [| | | | |fields];
    try (simpl; split; [intros [bb H]; discriminate H|discriminate]).
  unfold formatMessage_value.
  destruct (or_value (get (Some (VObj fields)) "user_message")
                     (get (Some (VObj fields)) "message"))
    as [[| | |s| |]|];
    split; try discriminate; try (intros [bb H]; discriminate H); eauto.
Qed.

Lemma map_opt_some_iff {A B : Type} (f : A -> option B) (l : list A) :
  (exists bs, map_opt f l = Some bs)
  <-> Forall (fun a => exists b, f a = Some b) l.
Proof.
  induction l as [|a l IH]; simpl.
  - split; [constructor|eauto].
  - split.
    + intros [bs H]. destruct (f a) as [b|] eqn:Ea; [|discriminate].
      destruct (map_opt f l) as [bs'|] eqn:El; [|discriminate].
      constructor; [eauto|]. apply IH. eauto.
    + intros H. inversion H as [|? ? [b Hb] Hl]; subst.
      apply IH in Hl. destruct Hl as [bs Hbs]. rewrite Hb, Hbs. eauto.
Qed.

(** The [messages.map] expression of the component evaluates without
    raising exactly when every entry has a text to show: a string
    under [user_message], or, [user_message] being absent or falsy, a
    string under [message].  One entry without it (a [null] frame, a
    reasoning update that carries only its note) makes the whole
    expression raise.  What the [SearchResults] child then does with
    the value it is handed is its own matter. *)
Theorem transcript_renders_iff (c : Chat) :
  (exists bubbles, render_transcript c = Some bubbles)
  <-> forallb has_text (messages c) = true.
Proof.
  unfold render_transcript. rewrite map_opt_some_iff, forallb_forall.
  rewrite Forall_forall. split; intros H m Hm.
  - apply render_message_some_iff. now apply H.
  - apply render_message_some_iff. now apply H.
Qed.

(** An entry is drawn with the spinner exactly when it is neither the
    user's nor a reasoning entry: the entries with a spinner are the
    ones a reasoning event removes, and the ones a final event
    overwrites when they stand last. *)
Theorem spinner_marks_replaceable (msg : value) (b : Bubble) :
  render_message msg = Some b ->
  items_end b = from_You (Some msg)
  /\ (spinner b <> None <-> kept msg = false)
  /\ forall prev, spinner b <> None <-> overrides (prev ++ [msg]) = true.
Proof.
  unfold render_message. destruct msg; try discriminate;
    (destruct (formatMessage_value _) as [rows|]; [|discriminate]);
    intros H; inversion H; subst; clear H; simpl;
    (split; [reflexivity|]);
    (split; [|intros prev; rewrite overrides_snoc]);
    unfold kept;
    match goal with
    | |- context [chain_of_thought ?m] =>
        destruct (chain_of_thought m), (from_You m); simpl;
        split; congruence
    end.
Qed.

Lemma spinner_marks_replaceable_witness :
  let msg := VObj [("message", VStr "working"); ("chain_of_thought", VBool false);
                   ("chain_of_thought_message", VStr "searching")] in
  exists b,
    render_message msg = Some b
    /\ items_end b = from_You (Some msg)
    /\ (spinner b <> None <-> kept msg = false)
    /\ forall prev, spinner b <> None <-> overrides (prev ++ [msg]) = true.
Proof.
  intros msg.
  exists (mkBubble false (Some (Some (VStr "searching"))) Nothing
                   (formatMessage "working")).
  split; [reflexivity|].
  apply spinner_marks_replaceable. reflexivity.
Defined.

Lemma accepted_input_nonempty (c : Chat) :
  accepted c = true -> nonempty (input c) = true.
Proof.
  unfold accepted. destruct (ws c); [|discriminate].
  intros H. apply andb_prop in H. destruct H as [H _].
  destruct (input c); [discriminate H|reflexivity].
Qed.

(** The entry of an accepted submission is drawn on the user's side,
    without spinner or search results, and its text is the input as it
    was typed, run through [formatMessage]. *)
Theorem user_entry_is_drawn (now : Z) (c : Chat) :
  accepted c = true ->
  render_message (user_entry now c)
  = Some (mkBubble true None Nothing (formatMessage (input c))).
Proof.
  intros H. apply accepted_input_nonempty in H.
  unfold render_message, user_entry, text_of, or_value. simpl.
  unfold nonempty in H. rewrite H. reflexivity.
Qed.

Lemma user_entry_is_drawn_witness :
  accepted chat_padded = true
  /\ render_message (user_entry 42 chat_padded)
     = Some (mkBubble true None Nothing [[Plain "  hi  "; Br]]).
Proof.
  split; [reflexivity|].
  apply (user_entry_is_drawn 42 chat_padded). reflexivity.
Defined.

(** * Further properties of the search-result view *)

Section ViewFacts.

Variable formatDate : string -> string.

(** The view is produced for every result set; its headings are the
    keys whose sequence is there and non-empty, in key order; and a
    shown category has one card for each entry that is not null, so
    never more cards than entries. *)
Theorem search_view_shape (results : Results) :
  exists view,
    SearchResults formatDate results = Some view
    /\ map heading view = filter (displayable results) (map fst results)
    /\ Forall (fun g =>
                 exists entries,
                   lookup results (heading g) = Some entries
                   /\ List.length (cards g)
                      = List.length (filter_Boolean entries)
                   /\ List.length (cards g) <= List.length entries)
              view.
Proof.
  unfold SearchResults.
  destruct (map_opt_group formatDate results
              (filter (displayable results) (map fst results)))
    as [view [Hv [Hh Hg]]].
  { apply Forall_forall. intros cat Hin. now apply filter_In in Hin. }
  exists view. split; [exact Hv|]. split; [exact Hh|].
  eapply Forall_impl; [|exact Hg].
  intros g [entries [Hl Hc]]. exists entries.
  split; [exact Hl|]. rewrite Hc, length_map. split; [reflexivity|].
  clear. induction entries as [|[x|] rest IH]; simpl; lia.
Qed.

(** A card shows a date exactly when [date] or [publish_time] is a
    non-empty string, and [formatDate] is then applied to [date] if
    that one is non-empty and to [publish_time] otherwise: it is never
    handed a missing or empty value. *)
Theorem date_is_formatted_when_present (category : string) (item : ResultItem) :
  (card_date (card formatDate category item) = None
   <-> present (date item) = false /\ present (publish_time item) = false)
  /\ forall shown,
       card_date (card formatDate category item) = Some shown ->
       exists iso,
         iso <> "" /\ shown = formatDate iso
         /\ ((present (date item) = true /\ date item = Some iso)
             \/ (present (date item) = false
                 /\ publish_time item = Some iso)).
Proof.
  unfold card, or_else, present, nonempty. simpl.
  destruct (date item) as [d|], (publish_time item) as [p|]; simpl;
    try destruct (String.eqb_spec d ""); try destruct (String.eqb_spec p "");
    simpl; (split; [split; try discriminate; try tauto;
                    intros [? ?]; discriminate|]);
    intros shown H; try discriminate; inversion H; subst; eauto 10.
Qed.

End ViewFacts.

(** * The entry and the request of a submission *)

Lemma assoc_with_prop_same (k : string) (v : value)
      (fields : list (string * value)) :
  assoc k (with_prop k v fields) = Some v.
Proof.
  induction fields as [|[k' v'] rest IH]; simpl.
  - now rewrite String.eqb_refl.
  - destruct (String.eqb k k') eqn:E; simpl.
    + now rewrite String.eqb_refl.
    + now rewrite E.
Qed.

Lemma assoc_with_prop_other (k k0 : string) (v : value)
      (fields : list (string * value)) :
  k0 <> k ->
  assoc k0 (with_prop k v fields) = assoc k0 fields.
Proof.
  intros Hne. induction fields as [|[k' v'] rest IH]; simpl.
  - apply String.eqb_neq in Hne. now rewrite Hne.
  - destruct (String.eqb k k') eqn:E; simpl.
    + apply String.eqb_eq in E. subst k'.
      apply String.eqb_neq in Hne. now rewrite Hne.
    + now rewrite IH.
Qed.

(** The entry a submission puts in the transcript and the request it
    sends agree on every property but [user]: same id, same
    identifiers, same text, same search flag; the entry has [user]
    set to ["You"] on top, the request has no [user]. *)
Theorem entry_mirrors_request (now : Z) (c : Chat) :
  get (Some (user_entry now c)) "user" = Some (VStr "You")
  /\ get (Some (VObj (messageData now c))) "user" = None
  /\ forall k,
       k <> "user" ->
       get (Some (user_entry now c)) k
       = get (Some (VObj (messageData now c))) k.
Proof.
  split; [reflexivity|]. split; [reflexivity|].
  intros k Hk. unfold user_entry, get.
  now apply assoc_with_prop_other.
Qed.

Lemma entry_mirrors_request_witness :
  "user_message" <> "user"
  /\ get (Some (user_entry 42 chat_padded)) "user_message"
     = get (Some (VObj (messageData 42 chat_padded))) "user_message".
Proof.
  split; [discriminate|].
  apply (entry_mirrors_request 42 chat_padded). discriminate.
Defined.

Lemma date_is_formatted_when_present_witness :
  let item := mkItem None None None (Some "") (Some "2024-03-05T00:00:00Z")
                     None None None None in
  card_date (card (fun iso => iso) "news" item) = Some "2024-03-05T00:00:00Z"
  /\ exists iso,
       iso <> "" /\ "2024-03-05T00:00:00Z" = (fun iso => iso) iso
       /\ ((present (date item) = true /\ date item = Some iso)
           \/ (present (date item) = false /\ publish_time item = Some iso)).
Proof.
  intros item. split; [reflexivity|].
  apply (proj2 (date_is_formatted_when_present (fun iso => iso) "news" item)).
  reflexivity.
Defined.
